(** * vec2: a shallow embedding of [vec2.js] and its specification

    The class [vec2] of [vec2.js] is a mutable pair of JavaScript numbers
    whose methods update the receiver in place and return it.  The
    embedding keeps that shape:

    - objects live in a heap indexed by references, so that "returns the
      same instance", allocation by [clone] and aliasing between the
      receiver and an operand are all visible; the heap holds instances
      of the class and plain [{x, y}] operands alike, and a receiver is
      always an instance;
    - a method is a computation in a state-and-exception monad over that
      heap; a method call by name goes through the prototype of the class
      and raises [TypeError] when the name is not bound there.

    The class is given over two arithmetics.

    - Exact real arithmetic ([number], [Module vec2]): a number is a
      real, one of the two infinities, or NaN; operations on reals are
      exact (no rounding, no overflow, no underflow, one zero) and the
      IEEE rules for the special values are kept.  This is the
      arithmetic of the statements that say "in exact real arithmetic",
      and of the statements that use no arithmetic at all.
    - IEEE-754 doubles ([Module Double]): a number is a binary64 float,
      as in the running program, with its rounding, overflow, underflow
      and signed zeros.  This is the arithmetic of the statements on
      [normalize], [setMag], [setDirection], [angle] and [norm], whose
      truth depends on them. *)

From Stdlib Require Import Floats.
From Stdlib Require Import Reals Lra Lia ZArith String.
From stdpp Require Import gmap strings.

Local Open Scope R_scope.

(** A decimal literal of a double denotes the nearest double, as it does
    in JavaScript. *)
#[local] Set Warnings "-inexact-float".

(** ** Numbers in exact real arithmetic *)

Inductive number : Type :=
| Fin (r : R)
| PInf
| NInf
| NaN.

Definition Rsign (r : R) : comparison :=
  if Rlt_dec 0 r then Gt else if Rlt_dec r 0 then Lt else Eq.

(** The infinity of a given sign; a product or quotient whose sign is
    undetermined ([0 * Infinity], [0 / 0]) is NaN. *)
Definition inf_of_sign (c : comparison) : number :=
  match c with Gt => PInf | Lt => NInf | Eq => NaN end.

Definition flip (c : comparison) : comparison := CompOpp c.

Module Number.

(** unary [-a] *)
Definition neg (a : number) : number :=
  match a with
  | Fin r => Fin (- r)
  | PInf => NInf
  | NInf => PInf
  | NaN => NaN
  end.

(** [a + b] *)
Definition add (a b : number) : number :=
  match a, b with
  | NaN, _ | _, NaN => NaN
  | Fin r, Fin s => Fin (r + s)
  | Fin _, PInf | PInf, Fin _ | PInf, PInf => PInf
  | Fin _, NInf | NInf, Fin _ | NInf, NInf => NInf
  | PInf, NInf | NInf, PInf => NaN
  end.

(** [a - b] *)
Definition sub (a b : number) : number := add a (neg b).

(** [a * b] *)
Definition mul (a b : number) : number :=
  match a, b with
  | NaN, _ | _, NaN => NaN
  | Fin r, Fin s => Fin (r * s)
  | Fin r, PInf | PInf, Fin r => inf_of_sign (Rsign r)
  | Fin r, NInf | NInf, Fin r => inf_of_sign (flip (Rsign r))
  | PInf, PInf | NInf, NInf => PInf
  | PInf, NInf | NInf, PInf => NInf
  end.

(** [a / b]; the single zero of the model divides like [+0] *)
Definition div (a b : number) : number :=
  match a, b with
  | NaN, _ | _, NaN => NaN
  | Fin r, Fin s =>
      if Req_dec_T s 0 then inf_of_sign (Rsign r) else Fin (r / s)
  | Fin _, PInf | Fin _, NInf => Fin 0
  | PInf, Fin s => if Rlt_dec s 0 then NInf else PInf
  | NInf, Fin s => if Rlt_dec s 0 then PInf else NInf
  | _, _ => NaN
  end.

(** [a == b] on numbers *)
Definition eqb (a b : number) : bool :=
  match a, b with
  | Fin r, Fin s => if Req_dec_T r s then true else false
  | PInf, PInf | NInf, NInf => true
  | _, _ => false
  end.

(** [a < b] on numbers *)
Definition ltb (a b : number) : bool :=
  match a, b with
  | Fin r, Fin s => if Rlt_dec r s then true else false
  | Fin _, PInf | NInf, Fin _ | NInf, PInf => true
  | _, _ => false
  end.

(** absolute value, used on the specification side only *)
Definition abs (a : number) : number :=
  match a with
  | Fin r => Fin (Rabs r)
  | PInf | NInf => PInf
  | NaN => NaN
  end.

End Number.

Declare Scope number_scope.
Delimit Scope number_scope with num.
Bind Scope number_scope with number.
Infix "+" := Number.add : number_scope.
Infix "-" := Number.sub : number_scope.
Infix "*" := Number.mul : number_scope.
Infix "/" := Number.div : number_scope.
Notation "- a" := (Number.neg a) : number_scope.
Infix "==" := Number.eqb (at level 70, no associativity) : number_scope.
Infix "<?" := Number.ltb : number_scope.

(** An exponent that is an integer, and which one. *)
Definition integral (r : R) : option Z :=
  let n := Int_part r in
  if Req_dec_T (IZR n) r then Some n else None.

Module Math.

Definition PI : number := Fin Rtrigo1.PI.

Definition sqrt (a : number) : number :=
  match a with
  | Fin r => if Rlt_dec r 0 then NaN else Fin (R_sqrt.sqrt r)
  | PInf => PInf
  | NInf | NaN => NaN
  end.

Definition sin (a : number) : number :=
  match a with Fin r => Fin (Rtrigo_def.sin r) | _ => NaN end.

Definition cos (a : number) : number :=
  match a with Fin r => Fin (Rtrigo_def.cos r) | _ => NaN end.

Definition acos (a : number) : number :=
  match a with
  | Fin r =>
      if Rle_dec (-1) r then
        if Rle_dec r 1 then Fin (Ratan.acos r) else NaN
      else NaN
  | _ => NaN
  end.

(** A finite non-zero base raised to a finite non-zero exponent: a
    negative base has a power only at an integer exponent. *)
Definition pow_finite (b e : R) : number :=
  if Rlt_dec 0 b then Fin (Rpower b e)
  else match integral e with
       | Some n => Fin (powerRZ b n)
       | None => NaN
       end.

(** [Math.pow(base, exponent)], following the case analysis of
    Number::exponentiate in ECMA-262. *)
Definition pow (base exponent : number) : number :=
  match exponent with
  | NaN => NaN
  | Fin e =>
      if Req_dec_T e 0 then Fin 1
      else match base with
           | NaN => NaN
           | PInf => if Rlt_dec 0 e then PInf else Fin 0
           | NInf =>
               match integral e with
               | Some n =>
                   if Z.odd n
                   then (if Rlt_dec 0 e then NInf else Fin 0)
                   else (if Rlt_dec 0 e then PInf else Fin 0)
               | None => if Rlt_dec 0 e then PInf else Fin 0
               end
           | Fin b =>
               if Req_dec_T b 0
               then (if Rlt_dec 0 e then Fin 0 else PInf)
               else pow_finite b e
           end
  | PInf =>
      match base with
      | NaN => NaN
      | PInf | NInf => PInf
      | Fin b =>
          if Rlt_dec 1 (Rabs b) then PInf
          else if Req_dec_T (Rabs b) 1 then NaN
          else Fin 0
      end
  | NInf =>
      match base with
      | NaN => NaN
      | PInf | NInf => Fin 0
      | Fin b =>
          if Rlt_dec 1 (Rabs b) then Fin 0
          else if Req_dec_T (Rabs b) 1 then NaN
          else PInf
      end
  end.

End Math.

(** ** Objects, references and the heap *)

(** [Vector2Like] of [vec2.d.ts]: any object with numeric [x] and [y]. *)
Record Vector2Like : Type := { x : number; y : number }.

Definition ref : Type := positive.

Abbreviation heap := (gmap ref Vector2Like).

Inductive error : Type :=
| TypeError (msg : string)
| OutsideSignature (name : string).

Inductive outcome (A : Type) : Type :=
| Ok (a : A) (h : heap)
| Throw (e : error).
Arguments Ok {A} a h.
Arguments Throw {A} e.

(** A computation that reads and updates the heap and may throw. *)
Definition JS (A : Type) : Type := heap -> outcome A.

Definition ret {A} (a : A) : JS A := fun h => Ok a h.

Definition throw {A} (e : error) : JS A := fun _ => Throw e.

Definition bind {A B} (k : A -> JS B) (m : JS A) : JS B :=
  fun h => match m h with
           | Ok a h' => k a h'
           | Throw e => Throw e
           end.

#[global] Instance JS_ret : MRet JS := @ret.
#[global] Instance JS_bind : MBind JS := @bind.

Definition read (o : ref) : JS Vector2Like :=
  fun h => match h !! o with
           | Some v => Ok v h
           | None => Throw (TypeError "cannot read properties of undefined")
           end.

Definition write (o : ref) (v : Vector2Like) : JS unit :=
  fun h => Ok tt (<[o := v]> h).

(** [o.x] and [o.y] *)
Definition get_x (o : ref) : JS number := v ← read o; ret (x v).
Definition get_y (o : ref) : JS number := v ← read o; ret (y v).

(** [o.x = a] and [o.y = a] *)
Definition put_x (o : ref) (a : number) : JS unit :=
  v ← read o; write o {| x := a; y := y v |}.
Definition put_y (o : ref) (a : number) : JS unit :=
  v ← read o; write o {| x := x v; y := a |}.

(** Allocation of a new object: a reference the heap does not hold yet. *)
Definition alloc (v : Vector2Like) : JS ref :=
  fun h => let l := fresh (dom h) in Ok l (<[l := v]> h).

(** ** The class [vec2] *)

Module vec2.

Local Open Scope number_scope.

(** The static fields, in the order of their initialisers. *)
Definition ORIGIN : ref := 1%positive.
Definition RIGHT : ref := 2%positive.
Definition LEFT : ref := 3%positive.
Definition TOP : ref := 4%positive.
Definition DOWN : ref := 5%positive.

(** A parameter with a default value is an [option]: [None] is the
    argument left out, and selects the default.

    [new vec2(x, y)] *)
Definition constructor (a b : option number) : JS ref :=
  alloc {| x := default (Fin 0) a; y := default (Fin 0) b |}.

Definition set (this : ref) (a b : number) : JS ref :=
  put_x this a;;
  put_y this b;;
  ret this.

Definition translate (this : ref) (a b : option number) : JS ref :=
  let a := default (Fin 0) a in
  let b := default (Fin 0) b in
  tx ← get_x this; put_x this (tx + a);;
  ty ← get_y this; put_y this (ty + b);;
  ret this.

Definition magSq (this : ref) : JS number :=
  tx ← get_x this;
  ty ← get_y this;
  ret (tx * tx + ty * ty).

Definition mag (this : ref) : JS number :=
  s ← magSq this;
  ret (Math.sqrt s).

Definition scale (this : ref) (val : number) : JS ref :=
  tx ← get_x this; put_x this (tx * val);;
  ty ← get_y this; put_y this (ty * val);;
  ret this.

Definition normalize (this : ref) : JS ref :=
  m ← mag this;
  if m == Fin 0 then ret this
  else scale this (Fin 1 / m).

Definition copy (this other : ref) : JS ref :=
  a ← get_x other;
  b ← get_y other;
  set this a b.

Definition clone (this : ref) : JS ref :=
  tx ← get_x this;
  ty ← get_y this;
  constructor (Some tx) (Some ty).

Definition sub (this other : ref) : JS ref :=
  a ← get_x other;
  b ← get_y other;
  translate this (Some (- a)) (Some (- b)).

Definition add (this other : ref) : JS ref :=
  a ← get_x other;
  b ← get_y other;
  translate this (Some a) (Some b).

Definition dot (this other : ref) : JS number :=
  a ← get_x other;
  b ← get_y other;
  tx ← get_x this;
  ty ← get_y this;
  ret (tx * a + ty * b).

Definition cross (this other : ref) : JS number :=
  a ← get_x other;
  b ← get_y other;
  tx ← get_x this;
  ty ← get_y this;
  ret (tx * b - a * ty).

Definition setMag (this : ref) (mag : number) : JS ref :=
  r ← normalize this;
  scale r mag.

Definition setDirection (this dir : ref) : JS ref :=
  mag ← dot this dir;
  r ← copy this dir;
  setMag r mag.

Definition rotateAround (this : ref) (angle : number) (origin : option ref)
  : JS ref :=
  let origin := default ORIGIN origin in
  a ← get_x origin;
  b ← get_y origin;
  let sin := Math.sin angle in
  let cos := Math.cos angle in
  px ← get_x this;
  py ← get_y this;
  let tx := px - a in
  let ty := py - b in
  set this (tx * cos - ty * sin + a) (tx * sin + ty * cos + b).

Definition norm (this : ref) (norm : option number) : JS number :=
  let norm := default (Fin 2) norm in
  tx ← get_x this;
  ty ← get_y this;
  ret (Math.pow (Math.pow tx norm + Math.pow ty norm) (Fin 1 / norm)).

(** [static angle(v1, v2)] *)
Definition angle (v1 v2 : ref) : JS number :=
  d ← dot v1 v2;
  s1 ← magSq v1;
  s2 ← magSq v2;
  ret (Math.acos (d / Math.sqrt (s1 * s2))).

(** [static angle2(v1, v2)] *)
Definition angle2 (v1 v2 : ref) : JS number :=
  a ← angle v1 v2;
  sign ← cross v1 v2;
  if sign <? Fin 0 then ret (Fin 2 * Math.PI - a)
  else ret a.

(** The heap once the class definition has been evaluated: the five
    static instances. *)
Definition statics : heap :=
  <[DOWN := {| x := Fin 0; y := Fin (-1) |}]>
  (<[TOP := {| x := Fin 0; y := Fin 1 |}]>
  (<[LEFT := {| x := Fin (-1); y := Fin 0 |}]>
  (<[RIGHT := {| x := Fin 1; y := Fin 0 |}]>
  (<[ORIGIN := {| x := Fin 0; y := Fin 0 |}]> ∅)))).

End vec2.

(** ** Method calls by name

    [v.name(args)] looks [name] up in the prototype of the class, which
    holds exactly the methods of the class body of [vec2.js], and throws
    a [TypeError] when nothing is bound to it.  Arguments are decoded
    along the parameter types of [vec2.d.ts]; a call that does not fit
    them is outside the embedding and reported as [OutsideSignature]. *)

Inductive value : Type :=
| VUndefined
| VNumber (a : number)
| VObject (o : ref).

Abbreviation method := (ref -> list value -> JS value).

Definition arg (args : list value) (i : nat) : value :=
  default VUndefined (args !! i).

Definition number_arg (name : string) (v : value) : JS number :=
  match v with
  | VNumber a => ret a
  | _ => throw (OutsideSignature name)
  end.

Definition optional_number_arg (name : string) (v : value)
  : JS (option number) :=
  match v with
  | VUndefined => ret None
  | VNumber a => ret (Some a)
  | VObject _ => throw (OutsideSignature name)
  end.

Definition object_arg (name : string) (v : value) : JS ref :=
  match v with
  | VObject o => ret o
  | _ => throw (OutsideSignature name)
  end.

Definition optional_object_arg (name : string) (v : value)
  : JS (option ref) :=
  match v with
  | VUndefined => ret None
  | VObject o => ret (Some o)
  | VNumber _ => throw (OutsideSignature name)
  end.

Definition returning_object (m : JS ref) : JS value := o ← m; ret (VObject o).
Definition returning_number (m : JS number) : JS value :=
  a ← m; ret (VNumber a).

(** The methods of the class body, in source order. *)
Definition methods : list (string * method) :=
  [ ("set", fun this args =>
       a ← number_arg "set" (arg args 0);
       b ← number_arg "set" (arg args 1);
       returning_object (vec2.set this a b));
    ("translate", fun this args =>
       a ← optional_number_arg "translate" (arg args 0);
       b ← optional_number_arg "translate" (arg args 1);
       returning_object (vec2.translate this a b));
    ("magSq", fun this _ => returning_number (vec2.magSq this));
    ("mag", fun this _ => returning_number (vec2.mag this));
    ("scale", fun this args =>
       val ← number_arg "scale" (arg args 0);
       returning_object (vec2.scale this val));
    ("normalize", fun this _ => returning_object (vec2.normalize this));
    ("copy", fun this args =>
       other ← object_arg "copy" (arg args 0);
       returning_object (vec2.copy this other));
    ("clone", fun this _ => returning_object (vec2.clone this));
    ("sub", fun this args =>
       other ← object_arg "sub" (arg args 0);
       returning_object (vec2.sub this other));
    ("add", fun this args =>
       other ← object_arg "add" (arg args 0);
       returning_object (vec2.add this other));
    ("dot", fun this args =>
       other ← object_arg "dot" (arg args 0);
       returning_number (vec2.dot this other));
    ("cross", fun this args =>
       other ← object_arg "cross" (arg args 0);
       returning_number (vec2.cross this other));
    ("setMag", fun this args =>
       mag ← number_arg "setMag" (arg args 0);
       returning_object (vec2.setMag this mag));
    ("setDirection", fun this args =>
       dir ← object_arg "setDirection" (arg args 0);
       returning_object (vec2.setDirection this dir));
    ("rotateAround", fun this args =>
       angle ← number_arg "rotateAround" (arg args 0);
       origin ← optional_object_arg "rotateAround" (arg args 1);
       returning_object (vec2.rotateAround this angle origin));
    ("norm", fun this args =>
       p ← optional_number_arg "norm" (arg args 0);
       returning_number (vec2.norm this p)) ].

Definition prototype : gmap string method := list_to_map methods.

(** [this.name(args)] *)
Definition invoke (this : ref) (name : string) (args : list value)
  : JS value :=
  match prototype !! name with
  | Some m => m this args
  | None => throw (TypeError (name ++ " is not a function"))
  end.

(** The instance methods that [vec2.d.ts] declares for the class. *)
Definition declared_methods : list string :=
  [ "set"; "translate"; "magSq"; "mag"; "scale"; "normalize"; "copy";
    "clone"; "sub"; "add"; "dot"; "cross"; "setMag"; "hadamard";
    "setDirection"; "rotateAround"; "norm"; "toPolar"; "toCartesian";
    "lerp" ].

(** ** Component-level results

    What the methods compute on the components of their operands, named
    so that the statements below stay readable. *)

Section Values.

Local Open Scope number_scope.

Definition magSq_of (v : Vector2Like) : number := x v * x v + y v * y v.
Definition mag_of (v : Vector2Like) : number := Math.sqrt (magSq_of v).
Definition dot_of (v w : Vector2Like) : number := x v * x w + y v * y w.
Definition cross_of (v w : Vector2Like) : number := x v * y w - x w * y v.
Definition scaled (v : Vector2Like) (k : number) : Vector2Like :=
  {| x := x v * k; y := y v * k |}.
Definition translated (v : Vector2Like) (a b : number) : Vector2Like :=
  {| x := x v + a; y := y v + b |}.
Definition normalized (v : Vector2Like) : Vector2Like :=
  if mag_of v == Fin 0 then v else scaled v (Fin 1 / mag_of v).
Definition rotated (v : Vector2Like) (angle : number) (o : Vector2Like)
  : Vector2Like :=
  let tx := x v - x o in
  let ty := y v - y o in
  {| x := tx * Math.cos angle - ty * Math.sin angle + x o;
     y := tx * Math.sin angle + ty * Math.cos angle + y o |}.
Definition norm_of (v : Vector2Like) (p : number) : number :=
  Math.pow (Math.pow (x v) p + Math.pow (y v) p) (Fin 1 / p).

End Values.

(** The vector with finite components [(a, b)]. *)
Definition vec (a b : R) : Vector2Like := {| x := Fin a; y := Fin b |}.

(** ** Specification-side definitions *)

(** The value a computation returns, if it returns. *)
Definition returned {A} (o : outcome A) : option A :=
  match o with Ok a _ => Some a | Throw _ => None end.

(** [new vec2(2, 3).norm(1)] *)
Definition norm_1_of_2_3 : JS number :=
  v ← vec2.constructor (Some (Fin 2)) (Some (Fin 3));
  vec2.norm v (Some (Fin 1)).

(** The mathematical p-norm as the specification writes it,
    [(|x|^p + |y|^p)^(1/p)], over the same [Math.pow]. *)
Definition p_norm (v : Vector2Like) (p : number) : number :=
  Math.pow
    (Number.add (Math.pow (Number.abs (x v)) p)
                (Math.pow (Number.abs (y v)) p))
    (Number.div (Fin 1) p).

Definition nonneg (a : number) : Prop :=
  match a with
  | Fin r => 0 <= r
  | PInf => True
  | NInf | NaN => False
  end.


(** A call that returns its receiver and changes no other object: the
    heap afterwards differs from the heap before at the receiver only. *)
Definition updates_only (this : ref) (h : heap) (m : JS ref) : Prop :=
  exists v', m h = Ok this (<[this := v']> h).

(** A call that returns a number and leaves the heap as it was. *)
Definition reads_only (h : heap) (m : JS number) : Prop :=
  exists r, m h = Ok r h.

(** Whether a call by name finds a method of the class. *)
Definition is_bound (name : string) : bool :=
  match prototype !! name with Some _ => true | None => false end.

(** * The class on IEEE-754 doubles

    The same class once more, with a JavaScript number as what it is: a
    binary64 float, here Rocq's primitive [float], whose [+ - * /],
    square root and comparisons are the IEEE operations ([0 =? -0] is
    true, [nan =? nan] is false).  Rounding, overflow to an infinity,
    underflow to zero and the two zeros are all there.  ECMA-262 fixes
    [Math.acos] and [Math.pow] on their special cases and leaves the rest
    "implementation-approximated": the definitions below follow the case
    analysis of the standard and take the approximated part from an
    [engine], about which nothing is assumed.  The module holds the
    methods that the statements about doubles need. *)

Module Double.

Local Open Scope float_scope.

Record Vector2Like : Type := { x : float; y : float }.

Abbreviation heap := (gmap ref Vector2Like).

Inductive outcome (A : Type) : Type :=
| Ok (a : A) (h : heap)
| Throw (e : error).
Arguments Ok {A} a h.
Arguments Throw {A} e.

Definition JS (A : Type) : Type := heap -> outcome A.

Definition ret {A} (a : A) : JS A := fun h => Ok a h.

Definition bind {A B} (k : A -> JS B) (m : JS A) : JS B :=
  fun h => match m h with
           | Ok a h' => k a h'
           | Throw e => Throw e
           end.

#[global] Instance JS_ret : MRet JS := @ret.
#[global] Instance JS_bind : MBind JS := @bind.

Definition read (o : ref) : JS Vector2Like :=
  fun h => match h !! o with
           | Some v => Ok v h
           | None => Throw (TypeError "cannot read properties of undefined")
           end.

Definition write (o : ref) (v : Vector2Like) : JS unit :=
  fun h => Ok tt (<[o := v]> h).

Definition get_x (o : ref) : JS float := v ← read o; ret (x v).
Definition get_y (o : ref) : JS float := v ← read o; ret (y v).

Definition put_x (o : ref) (a : float) : JS unit :=
  v ← read o; write o {| x := a; y := y v |}.
Definition put_y (o : ref) (a : float) : JS unit :=
  v ← read o; write o {| x := x v; y := a |}.

(** What the host computes where ECMA-262 says "an
    implementation-approximated value". *)
Record engine : Type :=
  { approx_acos : float -> float;
    approx_pow : float -> float -> float }.

(** The integer a double is, if it is one. *)
Definition integer_of (e : float) : option Z :=
  match Prim2SF e with
  | S754_zero _ => Some 0%Z
  | S754_finite s m ex =>
      let magnitude :=
        if (0 <=? ex)%Z then Some (Z.shiftl (Zpos m) ex)
        else
          let d := Z.shiftl 1 (- ex) in
          if (Zpos m mod d =? 0)%Z then Some (Zpos m / d)%Z else None in
      match magnitude with
      | Some z => Some (if s then (- z)%Z else z)
      | None => None
      end
  | S754_infinity _ | S754_nan => None
  end.

Definition is_integral (e : float) : bool :=
  match integer_of e with Some _ => true | None => false end.

Definition is_odd_integer (e : float) : bool :=
  match integer_of e with Some z => Z.odd z | None => false end.

Module Math.

Definition sqrt (a : float) : float := PrimFloat.sqrt a.

(** [Math.acos(x)]: NaN outside [[-1, 1]], [+0] at 1. *)
Definition acos (E : engine) (a : float) : float :=
  if is_nan a || (1 <? a) || (a <? -1) then nan
  else if a =? 1 then 0
  else approx_acos E a.

(** [Math.pow(base, exponent)]: Number::exponentiate of ECMA-262, step by
    step. *)
Definition pow (E : engine) (base exponent : float) : float :=
  if is_nan exponent then nan
  else if exponent =? 0 then 1
  else if is_nan base then nan
  else
    match classify base with
    | FloatClass.PInf => if 0 <? exponent then infinity else 0
    | FloatClass.NInf =>
        if 0 <? exponent
        then (if is_odd_integer exponent then neg_infinity else infinity)
        else (if is_odd_integer exponent then neg_zero else 0)
    | FloatClass.PZero => if 0 <? exponent then 0 else infinity
    | FloatClass.NZero =>
        if 0 <? exponent
        then (if is_odd_integer exponent then neg_zero else 0)
        else (if is_odd_integer exponent then neg_infinity else infinity)
    | _ =>
        if exponent =? infinity then
          (if 1 <? abs base then infinity
           else if abs base =? 1 then nan else 0)
        else if exponent =? neg_infinity then
          (if 1 <? abs base then 0
           else if abs base =? 1 then nan else infinity)
        else if (base <? 0) && negb (is_integral exponent) then nan
        else approx_pow E base exponent
    end.

End Math.

Module vec2.

Definition set (this : ref) (a b : float) : JS ref :=
  put_x this a;;
  put_y this b;;
  ret this.

Definition magSq (this : ref) : JS float :=
  tx ← get_x this;
  ty ← get_y this;
  ret (tx * tx + ty * ty).

Definition mag (this : ref) : JS float :=
  s ← magSq this;
  ret (Math.sqrt s).

Definition scale (this : ref) (val : float) : JS ref :=
  tx ← get_x this; put_x this (tx * val);;
  ty ← get_y this; put_y this (ty * val);;
  ret this.

Definition normalize (this : ref) : JS ref :=
  m ← mag this;
  if m =? 0 then ret this
  else scale this (1 / m).

Definition copy (this other : ref) : JS ref :=
  a ← get_x other;
  b ← get_y other;
  set this a b.

Definition dot (this other : ref) : JS float :=
  a ← get_x other;
  b ← get_y other;
  tx ← get_x this;
  ty ← get_y this;
  ret (tx * a + ty * b).

Definition setMag (this : ref) (mag : float) : JS ref :=
  r ← normalize this;
  scale r mag.

Definition setDirection (this dir : ref) : JS ref :=
  mag ← dot this dir;
  r ← copy this dir;
  setMag r mag.

Definition norm (E : engine) (this : ref) (norm : option float) : JS float :=
  let norm := default 2 norm in
  tx ← get_x this;
  ty ← get_y this;
  ret (Math.pow E (Math.pow E tx norm + Math.pow E ty norm) (1 / norm)).

Definition angle (E : engine) (v1 v2 : ref) : JS float :=
  d ← dot v1 v2;
  s1 ← magSq v1;
  s2 ← magSq v2;
  ret (Math.acos E (d / Math.sqrt (s1 * s2))).

End vec2.

(** Component-level results on doubles. *)
Definition magSq_of (v : Vector2Like) : float := x v * x v + y v * y v.
Definition mag_of (v : Vector2Like) : float := Math.sqrt (magSq_of v).
Definition dot_of (v w : Vector2Like) : float := x v * x w + y v * y w.
Definition scaled (v : Vector2Like) (k : float) : Vector2Like :=
  {| x := x v * k; y := y v * k |}.
Definition normalized (v : Vector2Like) : Vector2Like :=
  if mag_of v =? 0 then v else scaled v (1 / mag_of v).
Definition norm_of (E : engine) (v : Vector2Like) (p : float) : float :=
  Math.pow E (Math.pow E (x v) p + Math.pow E (y v) p) (1 / p).

(** The p-norm as the specification writes it, over the same [Math.pow]. *)
Definition p_norm (E : engine) (v : Vector2Like) (p : float) : float :=
  Math.pow E (Math.pow E (abs (x v)) p + Math.pow E (abs (y v)) p) (1 / p).

(** A double that is [+0], positive or [+Infinity]. *)
Definition nonneg (a : float) : bool :=
  match classify a with
  | FloatClass.PZero | FloatClass.PSubn | FloatClass.PNormal
  | FloatClass.PInf => true
  | _ => false
  end.

(** A double that is neither an infinity nor NaN. *)
Definition finite (a : float) : bool :=
  match classify a with
  | FloatClass.PInf | FloatClass.NInf | FloatClass.NaN => false
  | _ => true
  end.





End Double.

(** ** Running the primitives *)

Section Run.

Context {A B : Type}.

Lemma bind_Ok (m : JS A) (k : A -> JS B) h a h' :
  m h = Ok a h' -> (m ≫= k) h = k a h'.
Proof. intros E. unfold mbind, JS_bind, bind. now rewrite E. Qed.

Lemma bind_Throw (m : JS A) (k : A -> JS B) h e :
  m h = Throw e -> (m ≫= k) h = Throw e.
Proof. intros E. unfold mbind, JS_bind, bind. now rewrite E. Qed.

End Run.

Lemma read_Ok h o v : h !! o = Some v -> read o h = Ok v h.
Proof. intros E. unfold read. now rewrite E. Qed.

Lemma get_x_Ok h o v : h !! o = Some v -> get_x o h = Ok (x v) h.
Proof. intros E. unfold get_x. now rewrite (bind_Ok _ _ _ _ _ (read_Ok _ _ _ E)). Qed.

Lemma get_y_Ok h o v : h !! o = Some v -> get_y o h = Ok (y v) h.
Proof. intros E. unfold get_y. now rewrite (bind_Ok _ _ _ _ _ (read_Ok _ _ _ E)). Qed.

Lemma put_x_Ok h o v a :
  h !! o = Some v -> put_x o a h = Ok tt (<[o := {| x := a; y := y v |}]> h).
Proof. intros E. unfold put_x. now rewrite (bind_Ok _ _ _ _ _ (read_Ok _ _ _ E)). Qed.

Lemma put_y_Ok h o v a :
  h !! o = Some v -> put_y o a h = Ok tt (<[o := {| x := x v; y := a |}]> h).
Proof. intros E. unfold put_y. now rewrite (bind_Ok _ _ _ _ _ (read_Ok _ _ _ E)). Qed.

(** One step of a method body: run the primitive at the head of a bind
    against what the heap is known to hold. *)
Ltac js_step :=
  match goal with
  | |- context [ (get_x ?o ≫= ?k) ?h ] =>
      erewrite (bind_Ok (get_x o) k h) by (apply get_x_Ok; eassumption)
  | |- context [ (get_y ?o ≫= ?k) ?h ] =>
      erewrite (bind_Ok (get_y o) k h) by (apply get_y_Ok; eassumption)
  | |- context [ (put_x ?o ?a ≫= ?k) ?h ] =>
      erewrite (bind_Ok (put_x o a) k h) by (apply put_x_Ok; eassumption)
  | |- context [ (put_y ?o ?a ≫= ?k) ?h ] =>
      erewrite (bind_Ok (put_y o a) k h) by (apply put_y_Ok; eassumption)
  end; cbn beta.

Lemma set_Ok h this v a b :
  h !! this = Some v ->
  vec2.set this a b h = Ok this (<[this := {| x := a; y := b |}]> h).
Proof.
  intros E. unfold vec2.set. js_step.
  pose proof (lookup_insert_eq h this {| x := a; y := y v |}) as E'.
  js_step. cbn. now rewrite insert_insert_eq.
Qed.

(** ** What each method does to the heap *)

Section Methods.

Variables (h : heap) (this : ref) (v : Vector2Like).
Hypothesis Hthis : h !! this = Some v.

Lemma lookup_updated (w : Vector2Like) : <[this := w]> h !! this = Some w.
Proof. apply lookup_insert_eq. Qed.

Lemma update_id : <[this := v]> h = h.
Proof. now apply insert_id. Qed.

Lemma translate_Ok a b :
  vec2.translate this a b h
  = Ok this (<[this := translated v (default (Fin 0) a) (default (Fin 0) b)]> h).
Proof.
  unfold vec2.translate. do 2 js_step.
  pose proof (lookup_updated {| x := (x v + default (Fin 0) a)%num; y := y v |}).
  do 2 js_step. cbn. now rewrite insert_insert_eq.
Qed.

Lemma scale_Ok val :
  vec2.scale this val h = Ok this (<[this := scaled v val]> h).
Proof.
  unfold vec2.scale. do 2 js_step.
  pose proof (lookup_updated {| x := (x v * val)%num; y := y v |}).
  do 2 js_step. cbn. now rewrite insert_insert_eq.
Qed.

Lemma magSq_Ok : vec2.magSq this h = Ok (magSq_of v) h.
Proof. unfold vec2.magSq. now do 2 js_step. Qed.

Lemma mag_Ok : vec2.mag this h = Ok (mag_of v) h.
Proof. unfold vec2.mag. now rewrite (bind_Ok _ _ _ _ _ magSq_Ok). Qed.

Lemma normalize_Ok :
  vec2.normalize this h = Ok this (<[this := normalized v]> h).
Proof.
  unfold vec2.normalize, normalized.
  rewrite (bind_Ok _ _ _ _ _ mag_Ok).
  destruct (Number.eqb (mag_of v) (Fin 0)).
  - cbn. now rewrite update_id.
  - apply scale_Ok.
Qed.

Lemma norm_Ok p :
  vec2.norm this p h = Ok (norm_of v (default (Fin 2) p)) h.
Proof. unfold vec2.norm. now do 2 js_step. Qed.

Section Operand.

Variables (other : ref) (w : Vector2Like).
Hypothesis Hother : h !! other = Some w.

Lemma copy_Ok : vec2.copy this other h = Ok this (<[this := w]> h).
Proof.
  unfold vec2.copy. do 2 js_step.
  rewrite (set_Ok _ _ _ _ _ Hthis). now destruct w.
Qed.

Lemma add_Ok :
  vec2.add this other h = Ok this (<[this := translated v (x w) (y w)]> h).
Proof. unfold vec2.add. do 2 js_step. apply translate_Ok. Qed.

Lemma sub_Ok :
  vec2.sub this other h
  = Ok this (<[this := translated v (- x w) (- y w)]> h).
Proof. unfold vec2.sub. do 2 js_step. apply translate_Ok. Qed.

Lemma dot_Ok : vec2.dot this other h = Ok (dot_of v w) h.
Proof. unfold vec2.dot. now do 4 js_step. Qed.

Lemma cross_Ok : vec2.cross this other h = Ok (cross_of v w) h.
Proof. unfold vec2.cross. now do 4 js_step. Qed.

End Operand.

End Methods.

Lemma angle_Ok (h : heap) v1 v2 v w :
  h !! v1 = Some v -> h !! v2 = Some w ->
  vec2.angle v1 v2 h
  = Ok (Math.acos (dot_of v w / Math.sqrt (magSq_of v * magSq_of w)))%num h.
Proof.
  intros E E'. unfold vec2.angle.
  rewrite (bind_Ok _ _ _ _ _ (dot_Ok _ _ _ E _ _ E')). cbn beta.
  rewrite (bind_Ok _ _ _ _ _ (magSq_Ok _ _ _ E)). cbn beta.
  now rewrite (bind_Ok _ _ _ _ _ (magSq_Ok _ _ _ E')).
Qed.

Lemma clone_Ok (h : heap) this v :
  h !! this = Some v ->
  vec2.clone this h = Ok (fresh (dom h)) (<[fresh (dom h) := v]> h).
Proof.
  intros E. unfold vec2.clone. do 2 js_step.
  unfold vec2.constructor, alloc. cbn. now destruct v.
Qed.

Lemma setMag_Ok (h : heap) this v mag :
  h !! this = Some v ->
  vec2.setMag this mag h = Ok this (<[this := scaled (normalized v) mag]> h).
Proof.
  intros E. unfold vec2.setMag.
  rewrite (bind_Ok _ _ _ _ _ (normalize_Ok _ _ _ E)).
  rewrite (scale_Ok _ _ _ (lookup_updated _ _ _)).
  now rewrite insert_insert_eq.
Qed.

Lemma setDirection_Ok (h : heap) this dir v w :
  h !! this = Some v -> h !! dir = Some w ->
  vec2.setDirection this dir h
  = Ok this (<[this := scaled (normalized w) (dot_of v w)]> h).
Proof.
  intros E E'. unfold vec2.setDirection.
  rewrite (bind_Ok _ _ _ _ _ (dot_Ok _ _ _ E _ _ E')).
  rewrite (bind_Ok _ _ _ _ _ (copy_Ok _ _ _ E _ _ E')).
  rewrite (setMag_Ok _ _ _ _ (lookup_updated _ _ _)).
  now rewrite insert_insert_eq.
Qed.

Lemma rotateAround_Ok (h : heap) this v angle origin o :
  h !! this = Some v -> h !! default vec2.ORIGIN origin = Some o ->
  vec2.rotateAround this angle origin h
  = Ok this (<[this := rotated v angle o]> h).
Proof.
  intros E E'. unfold vec2.rotateAround. do 4 js_step.
  apply (set_Ok _ _ _ _ _ E).
Qed.

(** ** Arithmetic on finite components *)

(** Decide the tests on reals that the goal branches on. *)
Ltac decide_reals :=
  repeat match goal with
    | |- context [ Req_dec_T ?a ?b ] => destruct (Req_dec_T a b); try lra
    | |- context [ Rlt_dec ?a ?b ] => destruct (Rlt_dec a b); try lra
    | |- context [ Rle_dec ?a ?b ] => destruct (Rle_dec a b); try lra
    end.

Lemma sum_squares_nonneg a b : 0 <= a * a + b * b.
Proof. nra. Qed.


Lemma sum_squares_pos a b : a <> 0 \/ b <> 0 -> 0 < a * a + b * b.
Proof. intros [E | E]; nra. Qed.

Lemma sqrt_Fin r : 0 <= r -> Math.sqrt (Fin r) = Fin (sqrt r).
Proof. intros E. unfold Math.sqrt. now decide_reals. Qed.

Lemma div_Fin r s : s <> 0 -> Number.div (Fin r) (Fin s) = Fin (r / s).
Proof. intros E. unfold Number.div. now decide_reals. Qed.


Lemma eqb_Fin_false r s : r <> s -> Number.eqb (Fin r) (Fin s) = false.
Proof. intros E. unfold Number.eqb. now destruct (Req_dec_T r s). Qed.

Lemma magSq_of_vec a b : magSq_of (vec a b) = Fin (a * a + b * b).
Proof. reflexivity. Qed.

Lemma mag_of_vec a b : mag_of (vec a b) = Fin (sqrt (a * a + b * b)).
Proof.
  unfold mag_of. rewrite magSq_of_vec. apply sqrt_Fin, sum_squares_nonneg.
Qed.

Lemma scaled_vec a b k : scaled (vec a b) (Fin k) = vec (a * k) (b * k).
Proof. reflexivity. Qed.

Lemma sqrt_sum_squares_pos a b :
  a <> 0 \/ b <> 0 -> 0 < sqrt (a * a + b * b).
Proof. intros E. now apply sqrt_lt_R0, sum_squares_pos. Qed.




Lemma normalized_vec a b :
  a <> 0 \/ b <> 0 ->
  normalized (vec a b)
  = vec (a * (1 / sqrt (a * a + b * b))) (b * (1 / sqrt (a * a + b * b))).
Proof.
  intros E. pose proof (sqrt_sum_squares_pos a b E) as Hm.
  unfold normalized. rewrite mag_of_vec.
  rewrite eqb_Fin_false by lra.
  rewrite div_Fin by lra. apply scaled_vec.
Qed.



(** ** setMag, in exact real arithmetic *)


(** ** setDirection *)



(** The documented example [new vec2(5, 0).setDirection({x: 0, y: 1})]
    does not keep the length 5: the dot product is zero, and so is the
    result. *)
Lemma setDirection_documented_example (h : heap) (this dir : ref) :
  h !! this = Some (vec 5 0) ->
  h !! dir = Some (vec 0 1) ->
  vec2.setDirection this dir h = Ok this (<[this := vec 0 0]> h).
Proof.
  intros E E'. rewrite (setDirection_Ok _ _ _ _ _ E E').
  rewrite normalized_vec by (right; lra).
  change (dot_of (vec 5 0) (vec 0 1)) with (Fin (5 * 0 + 0 * 1)).
  rewrite scaled_vec. do 2 f_equal. unfold vec. f_equal; f_equal; lra.
Qed.

(** ** rotateAround *)

(** C10.  With finite components, a finite angle and a finite origin
    (the argument, or [vec2.ORIGIN] as it stands in the heap when the
    argument is left out), [rotateAround] keeps the distance to the
    origin: the difference between the receiver and the origin has the
    same magnitude after the call as before. *)
Theorem rotateAround_preserves_distance (h : heap) (this : ref)
    (origin : option ref) (a b theta c d : R) :
  h !! this = Some (vec a b) ->
  h !! default vec2.ORIGIN origin = Some (vec c d) ->
  exists r,
    vec2.rotateAround this (Fin theta) origin h = Ok this (<[this := r]> h)
    /\ mag_of (translated r (- Fin c) (- Fin d))
       = mag_of (translated (vec a b) (- Fin c) (- Fin d)).
Proof.
  intros E E'. eexists. split; [apply (rotateAround_Ok _ _ _ _ _ _ E E')|].
  change (translated (vec a b) (- Fin c) (- Fin d))
    with (vec (a + - c) (b + - d)).
  change (translated (rotated (vec a b) (Fin theta) (vec c d))
            (- Fin c) (- Fin d))
    with (vec (((a + - c) * cos theta + - ((b + - d) * sin theta) + c) + - c)
              (((a + - c) * sin theta + (b + - d) * cos theta + d) + - d)).
  rewrite !mag_of_vec. do 2 f_equal.
  pose proof (sin2_cos2 theta) as T. unfold Rsqr in T.
  set (s := sin theta) in *. set (k := cos theta) in *.
  transitivity (((a + - c) * (a + - c) + (b + - d) * (b + - d))
                * (s * s + k * k)); [ring|].
  rewrite T. ring.
Qed.

Lemma rotateAround_preserves_distance_witness :
  let h := <[6%positive := vec 2 0]> vec2.statics in
  exists r,
    vec2.rotateAround 6%positive (Fin PI) None h
    = Ok 6%positive (<[6%positive := r]> h)
    /\ mag_of (translated r (- Fin 0) (- Fin 0))
       = mag_of (translated (vec 2 0) (- Fin 0) (- Fin 0)).
Proof.
  intros h. apply (rotateAround_preserves_distance h 6%positive None 2 0 PI 0 0).
  - apply lookup_insert_eq.
  - reflexivity.
Defined.

(** ** The static [angle] *)

Lemma mul_zero_l (s : number) :
  Number.mul (Fin 0) s = Fin 0 \/ Number.mul (Fin 0) s = NaN.
Proof.
  destruct s as [r| | |]; cbn; unfold Rsign; decide_reals; cbn; auto.
  left. f_equal. lra.
Qed.


(** No quotient by zero and no quotient by NaN is in the domain of
    [Math.acos]: the first is infinite or NaN, the second NaN. *)
Lemma acos_div_zero (d : number) : Math.acos (Number.div d (Fin 0)) = NaN.
Proof.
  destruct d as [r| | |]; cbn; unfold Rsign; decide_reals; reflexivity.
Qed.

Lemma acos_div_NaN (d : number) : Math.acos (Number.div d NaN) = NaN.
Proof. now destruct d. Qed.

Lemma acos_div_sqrt_zero (d s : number) :
  s = Fin 0 \/ s = NaN -> Math.acos (Number.div d (Math.sqrt s)) = NaN.
Proof.
  intros [-> | ->].
  - rewrite sqrt_Fin, sqrt_0 by lra. apply acos_div_zero.
  - apply acos_div_NaN.
Qed.

Lemma magSq_of_zero : magSq_of (vec 0 0) = Fin 0.
Proof. rewrite magSq_of_vec. f_equal. lra. Qed.



(** The angle of the zero vector with a unit vector: NaN, returned. *)
Lemma angle_ORIGIN_RIGHT :
  vec2.angle vec2.ORIGIN vec2.RIGHT vec2.statics = Ok NaN vec2.statics.
Proof.
  rewrite (angle_Ok _ _ _ (vec 0 0) (vec 1 0)) by reflexivity.
  f_equal. apply acos_div_sqrt_zero. rewrite magSq_of_zero. apply mul_zero_l.
Qed.

(** ** norm *)

Lemma pow_Fin_pos b e :
  0 < b -> e <> 0 -> Math.pow (Fin b) (Fin e) = Fin (Rpower b e).
Proof.
  intros Hb He. unfold Math.pow, Math.pow_finite. now decide_reals.
Qed.


Lemma integral_IZR n : integral (IZR n) = Some n.
Proof.
  unfold integral.
  replace (Int_part (IZR n)) with n by (apply Int_part_spec; lra).
  now decide_reals.
Qed.


Lemma pow_Fin_neg b e :
  b < 0 -> e <> 0 ->
  Math.pow (Fin b) (Fin e)
  = match integral e with Some n => Fin (powerRZ b n) | None => NaN end.
Proof.
  intros Hb He. unfold Math.pow, Math.pow_finite. now decide_reals.
Qed.

Lemma norm_of_2_3 : norm_of (vec 2 3) (Fin 1) = Fin 5.
Proof.
  unfold norm_of. cbn [x y vec].
  rewrite !pow_Fin_pos, !Rpower_1 by lra.
  rewrite div_Fin by lra. cbn [Number.add].
  rewrite pow_Fin_pos by lra.
  replace (1 / 1) with 1 by lra. rewrite Rpower_1 by lra.
  f_equal. lra.
Qed.

Lemma norm_1_of_2_3_returns (h : heap) :
  returned (norm_1_of_2_3 h) = Some (Fin 5).
Proof.
  unfold norm_1_of_2_3, vec2.constructor.
  erewrite bind_Ok by reflexivity. cbn [default].
  rewrite (norm_Ok _ _ (vec 2 3)) by apply lookup_insert_eq.
  cbn. f_equal. apply norm_of_2_3.
Qed.

(** C6, as the code has it.  The L1 norm of the vector (2, 3) is 5:
    [new vec2(2, 3).norm(1)] returns [2 + 3], from any heap. *)
Theorem norm_1_of_2_3_is_5 (h : heap) :
  returned (norm_1_of_2_3 h) = Some (Fin 5).
Proof. apply norm_1_of_2_3_returns. Qed.

(** C6, as stated, fails: [new vec2(2, 3).norm(1)] does not return 7. *)
Lemma norm_1_of_2_3_is_not_7 :
  returned (norm_1_of_2_3 vec2.statics) <> Some (Fin 7).
Proof.
  rewrite norm_1_of_2_3_returns. intros [= E]. lra.
Qed.

(** *** Signed powers against powers of the absolute value *)








(** The signed sum falls short of the sum of absolute values as soon as
    one component is negative and the exponent is odd: [(-2, 3)] at
    [p = 1] gives 1, where the 1-norm is 5. *)
Lemma norm_of_signed_example :
  norm_of (vec (-2) 3) (Fin 1) = Fin 1 /\ p_norm (vec (-2) 3) (Fin 1) = Fin 5.
Proof.
  assert (I1 : integral 1 = Some 1%Z) by apply (integral_IZR 1).
  split.
  - unfold norm_of. cbn [x y vec].
    rewrite pow_Fin_neg, I1, powerRZ_1 by lra.
    rewrite pow_Fin_pos, Rpower_1 by lra.
    rewrite div_Fin by lra. cbn [Number.add].
    rewrite pow_Fin_pos by lra.
    replace (1 / 1) with 1 by lra. rewrite Rpower_1 by lra. f_equal. lra.
  - unfold p_norm. cbn [x y vec Number.abs].
    rewrite (Rabs_left (-2)), (Rabs_pos_eq 3) by lra.
    rewrite !pow_Fin_pos, !Rpower_1 by lra.
    rewrite div_Fin by lra. cbn [Number.add].
    rewrite pow_Fin_pos by lra.
    replace (1 / 1) with 1 by lra. rewrite Rpower_1 by lra. f_equal. lra.
Qed.

(** *** Where the signed formula and the p-norm part, for [p > 0] *)










(** ** Methods the declarations promise and the class does not have *)

Lemma invoke_unbound (h : heap) (this : ref) (name : string)
    (args : list value) :
  prototype !! name = None ->
  invoke this name args h = Throw (TypeError (name ++ " is not a function")).
Proof. intros E. unfold invoke. now rewrite E. Qed.

(** C1.  [toPolar] and [toCartesian] are declared in [vec2.d.ts] and
    documented, but the class body binds neither name: calling either on
    any vector throws a [TypeError], so nothing is stored into [x] and
    [y] and there is no round trip to speak of. *)
Theorem toPolar_toCartesian_not_defined (h : heap) (this : ref)
    (args : list value) :
  In "toPolar"%string declared_methods
  /\ In "toCartesian"%string declared_methods
  /\ invoke this "toPolar" args h
     = Throw (TypeError "toPolar is not a function")
  /\ invoke this "toCartesian" args h
     = Throw (TypeError "toCartesian is not a function").
Proof.
  split; [cbn; tauto|]. split; [cbn; tauto|].
  split; now apply invoke_unbound.
Qed.

(** C5.  [hadamard] is declared in [vec2.d.ts] and documented, but the
    class body does not bind the name: [v.hadamard(other)] throws a
    [TypeError] and no component is multiplied. *)
Theorem hadamard_not_defined (h : heap) (this : ref) (args : list value) :
  In "hadamard"%string declared_methods
  /\ invoke this "hadamard" args h
     = Throw (TypeError "hadamard is not a function").
Proof.
  split; [cbn; tauto|]. now apply invoke_unbound.
Qed.

(** Every method that the class body does bind is found by a call. *)
Lemma methods_bound (name : string) (m : method) :
  In (name, m) methods -> is_Some (prototype !! name).
Proof.
  intros Hin. cbn in Hin.
  repeat (destruct Hin as [[= <- <-] | Hin]; [now eexists|]).
  destruct Hin.
Qed.

(** ** The documented scenarios, in exact real arithmetic *)

Lemma angle2_Ok (h : heap) v1 v2 v w :
  h !! v1 = Some v -> h !! v2 = Some w ->
  vec2.angle2 v1 v2 h
  = Ok (let a := Math.acos
                   (Number.div (dot_of v w)
                      (Math.sqrt (Number.mul (magSq_of v) (magSq_of w)))) in
        if Number.ltb (cross_of v w) (Fin 0)
        then Number.sub (Number.mul (Fin 2) Math.PI) a
        else a) h.
Proof.
  intros E E'. unfold vec2.angle2.
  rewrite (bind_Ok _ _ _ _ _ (angle_Ok _ _ _ _ _ E E')). cbn beta.
  rewrite (bind_Ok _ _ _ _ _ (cross_Ok _ _ _ E _ _ E')). cbn beta zeta.
  now destruct (Number.ltb _ _).
Qed.

(** [new vec2(3, 4).mag() == 5] *)
Lemma mag_3_4 : mag_of (vec 3 4) = Fin 5.
Proof.
  rewrite mag_of_vec. f_equal.
  replace (3 * 3 + 4 * 4) with (5 * 5) by lra. apply sqrt_square. lra.
Qed.

(** [new vec2(3, 4).normalize()] is [(0.6, 0.8)] *)
Lemma normalize_3_4 : normalized (vec 3 4) = vec (3 / 5) (4 / 5).
Proof.
  pose proof mag_3_4 as E. rewrite mag_of_vec in E. injection E as E.
  rewrite normalized_vec by (left; lra). rewrite E.
  unfold vec. f_equal; f_equal; lra.
Qed.

(** [new vec2(1, 0).rotateAround(Math.PI / 2)] is [(0, 1)] *)
Lemma rotate_quarter_turn :
  rotated (vec 1 0) (Fin (PI / 2)) (vec 0 0) = vec 0 1.
Proof.
  unfold rotated, vec. cbn. rewrite cos_PI2, sin_PI2. f_equal; f_equal; lra.
Qed.

(** [new vec2(2, 0).rotateAround(Math.PI, {x: 1, y: 0})] is [(0, 0)] *)
Lemma rotate_half_turn_about_1_0 :
  rotated (vec 2 0) (Fin PI) (vec 1 0) = vec 0 0.
Proof.
  unfold rotated, vec. cbn. rewrite cos_PI, sin_PI. f_equal; f_equal; lra.
Qed.

(** [vec2.angle(vec2.RIGHT, vec2.TOP)] is [PI / 2] *)
Lemma angle_RIGHT_TOP :
  vec2.angle vec2.RIGHT vec2.TOP vec2.statics = Ok (Fin (PI / 2)) vec2.statics.
Proof.
  rewrite (angle_Ok _ _ _ (vec 1 0) (vec 0 1)) by reflexivity.
  f_equal. rewrite !magSq_of_vec.
  change (dot_of (vec 1 0) (vec 0 1)) with (Fin (1 * 0 + 0 * 1)).
  cbn [Number.mul].
  replace ((1 * 1 + 0 * 0) * (0 * 0 + 1 * 1)) with 1 by lra.
  rewrite sqrt_Fin, sqrt_1, div_Fin by lra.
  replace ((1 * 0 + 0 * 1) / 1) with 0 by lra.
  unfold Math.acos. decide_reals. now rewrite acos_0.
Qed.

(** [vec2.angle2(vec2.RIGHT, vec2.DOWN)] is [3 PI / 2] *)
Lemma angle2_RIGHT_DOWN :
  vec2.angle2 vec2.RIGHT vec2.DOWN vec2.statics
  = Ok (Fin (3 * PI / 2)) vec2.statics.
Proof.
  rewrite (angle2_Ok _ _ _ (vec 1 0) (vec 0 (-1))) by reflexivity.
  f_equal. rewrite !magSq_of_vec.
  change (dot_of (vec 1 0) (vec 0 (-1))) with (Fin (1 * 0 + 0 * -1)).
  change (cross_of (vec 1 0) (vec 0 (-1))) with (Fin (1 * -1 + - (0 * 0))).
  cbn [Number.mul].
  replace ((1 * 1 + 0 * 0) * (0 * 0 + -1 * -1)) with 1 by lra.
  rewrite sqrt_Fin, sqrt_1, div_Fin by lra.
  replace ((1 * 0 + 0 * -1) / 1) with 0 by lra.
  unfold Math.acos, Number.ltb, Math.PI. decide_reals.
  rewrite acos_0. cbn. f_equal. lra.
Qed.

(** [clone()] allocates: the result is a reference the heap did not
    hold, and the original is left as it was. *)
Lemma clone_fresh (h : heap) (this : ref) (v : Vector2Like) :
  h !! this = Some v ->
  exists o h', vec2.clone this h = Ok o h'
               /\ h !! o = None /\ h' !! o = Some v /\ h' !! this = Some v.
Proof.
  intros E. exists (fresh (dom h)), (<[fresh (dom h) := v]> h).
  assert (Hfresh : h !! fresh (dom h) = None)
    by (apply not_elem_of_dom, is_fresh).
  split; [now apply clone_Ok|]. split; [assumption|].
  split; [apply lookup_insert_eq|].
  rewrite lookup_insert_ne; [assumption|]. intros Heq. congruence.
Qed.

(** * Further properties of the class

    ** add, sub, copy, clone and the defaults *)

Lemma lookup_other (h : heap) (this other : ref) (v' w : Vector2Like) :
  this <> other -> h !! other = Some w -> <[this := v']> h !! other = Some w.
Proof. intros Hne E. now rewrite lookup_insert_ne. Qed.


(** X3.  [clone()] gives an independent copy: it lives at a reference the heap
    did not hold, and scaling the clone changes the clone only; the
    original and every other object stay as they were. *)
Theorem clone_independent (h : heap) (this : ref) (v : Vector2Like)
    (k : number) :
  h !! this = Some v ->
  exists c h',
    (c ← vec2.clone this; vec2.scale c k) h = Ok c h'
    /\ h !! c = None
    /\ h' !! c = Some (scaled v k)
    /\ forall o, o <> c -> h' !! o = h !! o.
Proof.
  intros E. set (c := fresh (dom h)).
  assert (Hfresh : h !! c = None) by (apply not_elem_of_dom, is_fresh).
  exists c, (<[c := scaled v k]> h).
  split; [|split; [assumption|split; [apply lookup_insert_eq|]]].
  - rewrite (bind_Ok _ _ _ _ _ (clone_Ok _ _ _ E)). fold c.
    rewrite (scale_Ok _ _ _ (lookup_updated _ _ _)).
    now rewrite insert_insert_eq.
  - intros o Ho. now rewrite lookup_insert_ne.
Qed.

Lemma clone_independent_witness :
  let h := <[6%positive := vec 3 4]> vec2.statics in
  exists c h',
    (c ← vec2.clone 6%positive; vec2.scale c (Fin 2)) h = Ok c h'
    /\ h !! c = None
    /\ h' !! c = Some (scaled (vec 3 4) (Fin 2))
    /\ forall o, o <> c -> h' !! o = h !! o.
Proof.
  intros h. apply (clone_independent h 6%positive (vec 3 4) (Fin 2)).
  apply lookup_insert_eq.
Defined.

(** X4.  [copy(other)] copies by value: the receiver takes the components of
    [other], and changing the receiver afterwards leaves [other] as it
    was; [v.copy(v)] changes nothing. *)
Theorem copy_by_value (h : heap) (this other : ref) (v w : Vector2Like)
    (k : number) :
  this <> other ->
  h !! this = Some v ->
  h !! other = Some w ->
  vec2.copy this other h = Ok this (<[this := w]> h)
  /\ (exists h', (r ← vec2.copy this other; vec2.scale r k) h = Ok this h'
                 /\ h' !! this = Some (scaled w k) /\ h' !! other = Some w)
  /\ vec2.copy this this h = Ok this h.
Proof.
  intros Hne E E'. split; [apply (copy_Ok _ _ _ E _ _ E')|]. split.
  - exists (<[this := scaled w k]> h). split; [|split].
    + rewrite (bind_Ok _ _ _ _ _ (copy_Ok _ _ _ E _ _ E')).
      rewrite (scale_Ok _ _ _ (lookup_updated _ _ _)).
      now rewrite insert_insert_eq.
    + apply lookup_insert_eq.
    + now apply lookup_other.
  - rewrite (copy_Ok _ _ _ E _ _ E). f_equal. now apply insert_id.
Qed.

Lemma copy_by_value_witness :
  let h := <[7%positive := vec 1 2]> (<[6%positive := vec 3 4]> vec2.statics) in
  vec2.copy 6%positive 7%positive h = Ok 6%positive (<[6%positive := vec 1 2]> h)
  /\ (exists h', (r ← vec2.copy 6%positive 7%positive; vec2.scale r (Fin 2)) h
                 = Ok 6%positive h'
                 /\ h' !! 6%positive = Some (scaled (vec 1 2) (Fin 2))
                 /\ h' !! 7%positive = Some (vec 1 2))
  /\ vec2.copy 6%positive 6%positive h = Ok 6%positive h.
Proof.
  intros h. apply (copy_by_value h 6%positive 7%positive (vec 3 4) (vec 1 2)).
  - discriminate.
  - unfold h. rewrite lookup_insert_ne by discriminate. apply lookup_insert_eq.
  - apply lookup_insert_eq.
Defined.



(** ** What a call may touch *)

(** X6.  Every method that works in place returns its receiver and changes the
    receiver only: the operand, the rotation origin and every other
    object are left as they were, nothing is allocated, nothing thrown. *)
Theorem in_place_methods_update_only_receiver (h : heap) (this other : ref)
    (v w o : Vector2Like) (a b : number) (da db : option number)
    (origin : option ref) :
  h !! this = Some v ->
  h !! other = Some w ->
  h !! default vec2.ORIGIN origin = Some o ->
  updates_only this h (vec2.set this a b)
  /\ updates_only this h (vec2.translate this da db)
  /\ updates_only this h (vec2.scale this a)
  /\ updates_only this h (vec2.normalize this)
  /\ updates_only this h (vec2.copy this other)
  /\ updates_only this h (vec2.sub this other)
  /\ updates_only this h (vec2.add this other)
  /\ updates_only this h (vec2.setMag this a)
  /\ updates_only this h (vec2.setDirection this other)
  /\ updates_only this h (vec2.rotateAround this a origin).
Proof.
  intros E E' Eo. unfold updates_only. repeat split; eexists.
  - apply (set_Ok _ _ _ _ _ E).
  - apply (translate_Ok _ _ _ E).
  - apply (scale_Ok _ _ _ E).
  - apply (normalize_Ok _ _ _ E).
  - apply (copy_Ok _ _ _ E _ _ E').
  - apply (sub_Ok _ _ _ E _ _ E').
  - apply (add_Ok _ _ _ E _ _ E').
  - apply (setMag_Ok _ _ _ _ E).
  - apply (setDirection_Ok _ _ _ _ _ E E').
  - apply (rotateAround_Ok _ _ _ _ _ _ E Eo).
Qed.

Lemma in_place_methods_update_only_receiver_witness :
  let h := <[7%positive := vec 1 2]> (<[6%positive := vec 3 4]> vec2.statics) in
  updates_only 6%positive h (vec2.set 6%positive (Fin 1) (Fin 2))
  /\ updates_only 6%positive h (vec2.translate 6%positive None None)
  /\ updates_only 6%positive h (vec2.scale 6%positive (Fin 1))
  /\ updates_only 6%positive h (vec2.normalize 6%positive)
  /\ updates_only 6%positive h (vec2.copy 6%positive 7%positive)
  /\ updates_only 6%positive h (vec2.sub 6%positive 7%positive)
  /\ updates_only 6%positive h (vec2.add 6%positive 7%positive)
  /\ updates_only 6%positive h (vec2.setMag 6%positive (Fin 1))
  /\ updates_only 6%positive h (vec2.setDirection 6%positive 7%positive)
  /\ updates_only 6%positive h (vec2.rotateAround 6%positive (Fin 1) None).
Proof.
  intros h.
  apply (in_place_methods_update_only_receiver h 6%positive 7%positive
           (vec 3 4) (vec 1 2) (vec 0 0) (Fin 1) (Fin 2) None None None).
  - unfold h. rewrite lookup_insert_ne by discriminate. apply lookup_insert_eq.
  - apply lookup_insert_eq.
  - reflexivity.
Defined.

(** X7.  The queries read and never write: each returns a number and leaves
    the heap, receiver included, as it was. *)
Theorem queries_read_only (h : heap) (this other : ref) (v w : Vector2Like)
    (p : option number) :
  h !! this = Some v ->
  h !! other = Some w ->
  reads_only h (vec2.magSq this)
  /\ reads_only h (vec2.mag this)
  /\ reads_only h (vec2.dot this other)
  /\ reads_only h (vec2.cross this other)
  /\ reads_only h (vec2.norm this p)
  /\ reads_only h (vec2.angle this other)
  /\ reads_only h (vec2.angle2 this other).
Proof.
  intros E E'. unfold reads_only. repeat split; eexists.
  - apply (magSq_Ok _ _ _ E).
  - apply (mag_Ok _ _ _ E).
  - apply (dot_Ok _ _ _ E _ _ E').
  - apply (cross_Ok _ _ _ E _ _ E').
  - apply (norm_Ok _ _ _ E).
  - apply (angle_Ok _ _ _ _ _ E E').
  - apply (angle2_Ok _ _ _ _ _ E E').
Qed.

Lemma queries_read_only_witness :
  let h := vec2.statics in
  reads_only h (vec2.magSq vec2.RIGHT)
  /\ reads_only h (vec2.mag vec2.RIGHT)
  /\ reads_only h (vec2.dot vec2.RIGHT vec2.TOP)
  /\ reads_only h (vec2.cross vec2.RIGHT vec2.TOP)
  /\ reads_only h (vec2.norm vec2.RIGHT None)
  /\ reads_only h (vec2.angle vec2.RIGHT vec2.TOP)
  /\ reads_only h (vec2.angle2 vec2.RIGHT vec2.TOP).
Proof.
  intros h.
  apply (queries_read_only h vec2.RIGHT vec2.TOP (vec 1 0) (vec 0 1) None);
    reflexivity.
Defined.

(** ** setMag *)




(** ** rotateAround and the shared origin *)




Lemma mul_NaN_r (n : number) : Number.mul n NaN = NaN.
Proof. now destruct n. Qed.

Lemma rotated_not_finite (v o : Vector2Like) (angle : number) :
  (forall t, angle <> Fin t) ->
  rotated v angle o = {| x := NaN; y := NaN |}.
Proof.
  intros Hnf.
  assert (Hs : Math.sin angle = NaN)
    by (destruct angle as [t| | |]; [now destruct (Hnf t)|reflexivity..]).
  assert (Hc : Math.cos angle = NaN)
    by (destruct angle as [t| | |]; [now destruct (Hnf t)|reflexivity..]).
  unfold rotated. rewrite Hs, Hc, !mul_NaN_r. reflexivity.
Qed.

(** X19.  An angle that is not finite (an infinity or NaN) has no sine and no
    cosine: [rotateAround] then leaves NaN in both components, whatever
    the receiver and the origin hold, and does not throw. *)
Theorem rotateAround_not_finite (h : heap) (this : ref)
    (origin : option ref) (v o : Vector2Like) (angle : number) :
  h !! this = Some v ->
  h !! default vec2.ORIGIN origin = Some o ->
  (forall t, angle <> Fin t) ->
  vec2.rotateAround this angle origin h
  = Ok this (<[this := {| x := NaN; y := NaN |}]> h).
Proof.
  intros E Eo Hnf.
  now rewrite (rotateAround_Ok _ _ _ _ _ _ E Eo), rotated_not_finite.
Qed.

Lemma rotateAround_not_finite_witness :
  let h := <[6%positive := vec 3 4]> vec2.statics in
  vec2.rotateAround 6%positive PInf None h
  = Ok 6%positive (<[6%positive := {| x := NaN; y := NaN |}]> h).
Proof.
  intros h.
  apply (rotateAround_not_finite h 6%positive None (vec 3 4) (vec 0 0) PInf).
  - apply lookup_insert_eq.
  - reflexivity.
  - discriminate.
Defined.

(** X20.  The static [vec2.ORIGIN] is an ordinary mutable instance, read at
    each call: once it has been [set], a [rotateAround] without origin
    turns about the new point. *)
Theorem rotateAround_follows_ORIGIN (h : heap) (this : ref)
    (v o : Vector2Like) (angle c d : number) :
  this <> vec2.ORIGIN ->
  h !! this = Some v ->
  h !! vec2.ORIGIN = Some o ->
  (vec2.set vec2.ORIGIN c d;; vec2.rotateAround this angle None) h
  = Ok this (<[this := rotated v angle {| x := c; y := d |}]>
               (<[vec2.ORIGIN := {| x := c; y := d |}]> h)).
Proof.
  intros Hne E Eo.
  rewrite (bind_Ok _ _ _ _ _ (set_Ok _ _ _ _ _ Eo)).
  apply rotateAround_Ok.
  - apply lookup_other; [congruence|assumption].
  - apply lookup_insert_eq.
Qed.

Lemma rotateAround_follows_ORIGIN_witness :
  let h := <[6%positive := vec 2 0]> vec2.statics in
  (vec2.set vec2.ORIGIN (Fin 1) (Fin 0);;
   vec2.rotateAround 6%positive (Fin PI) None) h
  = Ok 6%positive
      (<[6%positive := rotated (vec 2 0) (Fin PI) {| x := Fin 1; y := Fin 0 |}]>
         (<[vec2.ORIGIN := {| x := Fin 1; y := Fin 0 |}]> h)).
Proof.
  intros h.
  apply (rotateAround_follows_ORIGIN h 6%positive (vec 2 0) (vec 0 0)).
  - discriminate.
  - apply lookup_insert_eq.
  - reflexivity.
Defined.

(** ** norm at particular exponents *)

(** X22.  The exponents at the edge, for every vector: [norm(Infinity)] and
    [norm(-Infinity)] are 1 (the outer exponent [1 / p] is zero),
    [norm(0)] is [Infinity] (each inner power is 1 and the outer exponent
    is [1 / 0]), and [norm(NaN)] is NaN. *)
Theorem norm_edge_exponents (h : heap) (this : ref) (v : Vector2Like) :
  h !! this = Some v ->
  vec2.norm this (Some PInf) h = Ok (Fin 1) h
  /\ vec2.norm this (Some NInf) h = Ok (Fin 1) h
  /\ vec2.norm this (Some (Fin 0)) h = Ok PInf h
  /\ vec2.norm this (Some NaN) h = Ok NaN h.
Proof.
  intros E. rewrite !(norm_Ok _ _ _ E).
  change (default (Fin 2) (Some PInf)) with PInf.
  change (default (Fin 2) (Some NInf)) with NInf.
  change (default (Fin 2) (Some (Fin 0))) with (Fin 0).
  change (default (Fin 2) (Some NaN)) with NaN.
  unfold norm_of. cbn [Number.div]. repeat split; f_equal.
  - unfold Math.pow at 1. now decide_reals.
  - unfold Math.pow at 1. now decide_reals.
  - unfold Math.pow, Rsign. decide_reals. cbn.
    rewrite Rabs_pos_eq by lra. now decide_reals.
Qed.

Lemma norm_edge_exponents_witness :
  let h := <[6%positive := vec 3 4]> vec2.statics in
  vec2.norm 6%positive (Some PInf) h = Ok (Fin 1) h
  /\ vec2.norm 6%positive (Some NInf) h = Ok (Fin 1) h
  /\ vec2.norm 6%positive (Some (Fin 0)) h = Ok PInf h
  /\ vec2.norm 6%positive (Some NaN) h = Ok NaN h.
Proof.
  intros h. apply (norm_edge_exponents h 6%positive (vec 3 4)).
  apply lookup_insert_eq.
Defined.

(** ** angle and angle2 *)

Lemma mul_comm (n m : number) : Number.mul n m = Number.mul m n.
Proof.
  destruct n as [r| | |], m as [s| | |]; cbn; try reflexivity.
  f_equal. lra.
Qed.

Lemma add_comm (n m : number) : Number.add n m = Number.add m n.
Proof.
  destruct n as [r| | |], m as [s| | |]; cbn; try reflexivity.
  f_equal. lra.
Qed.

Lemma dot_of_comm (v w : Vector2Like) : dot_of v w = dot_of w v.
Proof. unfold dot_of. now rewrite (mul_comm (x v)), (mul_comm (y v)). Qed.

(** X23.  [vec2.angle] does not depend on the order of its operands, whatever
    they hold. *)
Theorem angle_symmetric (h : heap) (v1 v2 : ref) (v w : Vector2Like) :
  h !! v1 = Some v ->
  h !! v2 = Some w ->
  vec2.angle v1 v2 h = vec2.angle v2 v1 h.
Proof.
  intros E E'.
  rewrite (angle_Ok _ _ _ _ _ E E'), (angle_Ok _ _ _ _ _ E' E).
  now rewrite dot_of_comm, (mul_comm (magSq_of v)).
Qed.

Lemma angle_symmetric_witness :
  vec2.angle vec2.RIGHT vec2.TOP vec2.statics
  = vec2.angle vec2.TOP vec2.RIGHT vec2.statics.
Proof.
  apply (angle_symmetric vec2.statics vec2.RIGHT vec2.TOP (vec 1 0) (vec 0 1));
    reflexivity.
Defined.



(** ** The class body against its declarations *)

(** X29.  Of the twenty instance methods that [vec2.d.ts] declares, the class
    body binds sixteen: the ones a call cannot find are [hadamard],
    [toPolar], [toCartesian] and [lerp], and the class body binds no
    method that is not declared. *)
Theorem declared_methods_unbound :
  List.filter (fun name => negb (is_bound name)) declared_methods
  = [ "hadamard"; "toPolar"; "toCartesian"; "lerp" ]%string
  /\ forallb (fun m => bool_decide (fst m ∈ declared_methods)) methods = true.
Proof. split; reflexivity. Qed.

(** X30.  [lerp] is declared and documented but not defined: a call throws a
    [TypeError], from any heap and with any arguments. *)
Theorem lerp_not_defined (h : heap) (this : ref) (args : list value) :
  In "lerp"%string declared_methods
  /\ invoke this "lerp" args h = Throw (TypeError "lerp is not a function").
Proof.
  split; [cbn; tauto|]. now apply invoke_unbound.
Qed.

(** ** Construction *)

(** [new vec2(x, y)] never reuses an object: the instance lives at a
    reference the heap did not hold, carries the arguments with 0 for
    each one left out, and every object already there is left as it
    was. *)
Theorem constructor_allocates (h : heap) (a b : option number) :
  exists c h',
    vec2.constructor a b h = Ok c h'
    /\ h !! c = None
    /\ h' !! c = Some {| x := default (Fin 0) a; y := default (Fin 0) b |}
    /\ forall o, o <> c -> h' !! o = h !! o.
Proof.
  exists (fresh (dom h)),
    (<[fresh (dom h) := {| x := default (Fin 0) a; y := default (Fin 0) b |}]> h).
  split; [reflexivity|]. split; [apply not_elem_of_dom, is_fresh|].
  split; [apply lookup_insert_eq|].
  intros o Ho. now rewrite lookup_insert_ne.
Qed.

(** * The class on doubles

    ** Running the methods *)

Section DoubleRun.

Context {A B : Type}.

Lemma double_bind_Ok (m : Double.JS A) (k : A -> Double.JS B) h a h' :
  m h = Double.Ok a h' -> (m ≫= k) h = k a h'.
Proof.
  intros E. unfold mbind, Double.JS_bind, Double.bind. now rewrite E.
Qed.

End DoubleRun.

Lemma double_read_Ok (h : Double.heap) o v :
  h !! o = Some v -> Double.read o h = Double.Ok v h.
Proof. intros E. unfold Double.read. now rewrite E. Qed.

Lemma double_get_x_Ok (h : Double.heap) o v :
  h !! o = Some v -> Double.get_x o h = Double.Ok (Double.x v) h.
Proof.
  intros E. unfold Double.get_x.
  now rewrite (double_bind_Ok _ _ _ _ _ (double_read_Ok _ _ _ E)).
Qed.

Lemma double_get_y_Ok (h : Double.heap) o v :
  h !! o = Some v -> Double.get_y o h = Double.Ok (Double.y v) h.
Proof.
  intros E. unfold Double.get_y.
  now rewrite (double_bind_Ok _ _ _ _ _ (double_read_Ok _ _ _ E)).
Qed.

Lemma double_put_x_Ok (h : Double.heap) o v a :
  h !! o = Some v ->
  Double.put_x o a h
  = Double.Ok tt (<[o := {| Double.x := a; Double.y := Double.y v |}]> h).
Proof.
  intros E. unfold Double.put_x.
  now rewrite (double_bind_Ok _ _ _ _ _ (double_read_Ok _ _ _ E)).
Qed.

Lemma double_put_y_Ok (h : Double.heap) o v a :
  h !! o = Some v ->
  Double.put_y o a h
  = Double.Ok tt (<[o := {| Double.x := Double.x v; Double.y := a |}]> h).
Proof.
  intros E. unfold Double.put_y.
  now rewrite (double_bind_Ok _ _ _ _ _ (double_read_Ok _ _ _ E)).
Qed.

Ltac double_step :=
  match goal with
  | |- context [ (Double.get_x ?o ≫= ?k) ?h ] =>
      erewrite (double_bind_Ok (Double.get_x o) k h)
        by (apply double_get_x_Ok; eassumption)
  | |- context [ (Double.get_y ?o ≫= ?k) ?h ] =>
      erewrite (double_bind_Ok (Double.get_y o) k h)
        by (apply double_get_y_Ok; eassumption)
  | |- context [ (Double.put_x ?o ?a ≫= ?k) ?h ] =>
      erewrite (double_bind_Ok (Double.put_x o a) k h)
        by (apply double_put_x_Ok; eassumption)
  | |- context [ (Double.put_y ?o ?a ≫= ?k) ?h ] =>
      erewrite (double_bind_Ok (Double.put_y o a) k h)
        by (apply double_put_y_Ok; eassumption)
  end; cbn beta.

Lemma double_lookup_updated (h : Double.heap) (this : ref)
    (w : Double.Vector2Like) :
  <[this := w]> h !! this = Some w.
Proof. apply lookup_insert_eq. Qed.

Section DoubleMethods.

Variables (h : Double.heap) (this : ref) (v : Double.Vector2Like).
Hypothesis Hthis : h !! this = Some v.


Lemma double_scale_Ok val :
  Double.vec2.scale this val h
  = Double.Ok this (<[this := Double.scaled v val]> h).
Proof.
  unfold Double.vec2.scale. do 2 double_step.
  pose proof (double_lookup_updated h this
                {| Double.x := (Double.x v * val)%float;
                   Double.y := Double.y v |}).
  do 2 double_step. cbn. now rewrite insert_insert_eq.
Qed.

Lemma double_magSq_Ok :
  Double.vec2.magSq this h = Double.Ok (Double.magSq_of v) h.
Proof. unfold Double.vec2.magSq. now do 2 double_step. Qed.

Lemma double_mag_Ok : Double.vec2.mag this h = Double.Ok (Double.mag_of v) h.
Proof.
  unfold Double.vec2.mag. now rewrite (double_bind_Ok _ _ _ _ _ double_magSq_Ok).
Qed.

Lemma double_normalize_Ok :
  Double.vec2.normalize this h
  = Double.Ok this (<[this := Double.normalized v]> h).
Proof.
  unfold Double.vec2.normalize, Double.normalized.
  rewrite (double_bind_Ok _ _ _ _ _ double_mag_Ok).
  destruct (Double.mag_of v =? 0)%float.
  - cbn. now rewrite insert_id.
  - apply double_scale_Ok.
Qed.


Section DoubleOperand.

Variables (other : ref) (w : Double.Vector2Like).
Hypothesis Hother : h !! other = Some w.


Lemma double_dot_Ok :
  Double.vec2.dot this other h = Double.Ok (Double.dot_of v w) h.
Proof. unfold Double.vec2.dot. now do 4 double_step. Qed.

End DoubleOperand.

End DoubleMethods.

Lemma double_setMag_Ok (h : Double.heap) this v mag :
  h !! this = Some v ->
  Double.vec2.setMag this mag h
  = Double.Ok this (<[this := Double.scaled (Double.normalized v) mag]> h).
Proof.
  intros E. unfold Double.vec2.setMag.
  rewrite (double_bind_Ok _ _ _ _ _ (double_normalize_Ok _ _ _ E)).
  rewrite (double_scale_Ok _ _ _ (double_lookup_updated _ _ _)).
  now rewrite insert_insert_eq.
Qed.


Lemma double_angle_Ok (h : Double.heap) E v1 v2 v w :
  h !! v1 = Some v -> h !! v2 = Some w ->
  Double.vec2.angle E v1 v2 h
  = Double.Ok
      (Double.Math.acos E
         (Double.dot_of v w
          / Double.Math.sqrt (Double.magSq_of v * Double.magSq_of w))%float) h.
Proof.
  intros H1 H2. unfold Double.vec2.angle.
  rewrite (double_bind_Ok _ _ _ _ _ (double_dot_Ok _ _ _ H1 _ _ H2)). cbn beta.
  rewrite (double_bind_Ok _ _ _ _ _ (double_magSq_Ok _ _ _ H1)). cbn beta.
  now rewrite (double_bind_Ok _ _ _ _ _ (double_magSq_Ok _ _ _ H2)).
Qed.

(** ** Special values of the IEEE operations

    Read off the specification of the primitive operations. *)

Lemma Prim2SF_zero : Prim2SF 0%float = S754_zero false.
Proof. reflexivity. Qed.

Lemma double_eqb_zero (a : float) :
  (a =? 0)%float = true -> exists s, Prim2SF a = S754_zero s.
Proof.
  rewrite FloatAxioms.eqb_spec, Prim2SF_zero.
  destruct (Prim2SF a) as [s|s| |s m e]; cbn; try discriminate; eauto;
    destruct s; discriminate.
Qed.

Lemma double_zero_eqb (a : float) (s : bool) :
  Prim2SF a = S754_zero s -> (a =? 0)%float = true.
Proof. intros E. now rewrite FloatAxioms.eqb_spec, Prim2SF_zero, E. Qed.

Lemma double_finite_cases (t : float) :
  Double.finite t = true ->
  (exists s, Prim2SF t = S754_zero s) \/ (exists s m e, Prim2SF t = S754_finite s m e).
Proof.
  unfold Double.finite. rewrite FloatAxioms.classify_spec.
  destruct (Prim2SF t) as [s|s| |s m e]; cbn; eauto.
  - destruct s; discriminate.
  - discriminate.
Qed.

(** Zero times a finite number is a zero. *)
Lemma double_zero_mul_finite (a t : float) :
  (a =? 0)%float = true -> Double.finite t = true -> (a * t =? 0)%float = true.
Proof.
  intros [s Ha]%double_eqb_zero Ht%double_finite_cases.
  destruct Ht as [[s' Ht] | (s' & m & e & Ht)];
    apply (double_zero_eqb _ (xorb s s'));
    now rewrite FloatAxioms.mul_spec, Ha, Ht.
Qed.









(** The square root of a double is zero only at a zero: the root of the
    smallest subnormal is far above it.  From the rounding of
    [SFsqrt]. *)
Section SquareRoot.

Local Open Scope Z_scope.










End SquareRoot.


(** ** normalize *)




(** The tiny vector [(1e-200, 1e-200)]: its squares underflow, [mag()]
    is 0, and [normalize()] leaves it as it is. *)
Lemma normalize_underflows :
  let v := {| Double.x := 1e-200%float; Double.y := 1e-200%float |} in
  (Double.mag_of v =? 0)%float = true /\ Double.normalized v = v.
Proof. split; vm_compute; reflexivity. Qed.

(** ** setDirection *)




(** ** setMag *)

(** C7, as the code has it.  On doubles, when [mag() == 0] holds
    [normalize()] does nothing and [setMag(t)] is [scale(t)], with no
    error, for every [t] and every such vector; on the zero vector
    (components [+0] or [-0]) and a finite [t] the result is again a zero
    vector. *)
Theorem setMag_zero_on_doubles (h : Double.heap) (this : ref)
    (v : Double.Vector2Like) (t : float) :
  h !! this = Some v ->
  (Double.mag_of v =? 0)%float = true ->
  Double.vec2.setMag this t h
  = Double.Ok this (<[this := Double.scaled v t]> h)
  /\ ((Double.x v =? 0)%float = true -> (Double.y v =? 0)%float = true ->
      Double.finite t = true ->
      (Double.x (Double.scaled v t) =? 0)%float = true
      /\ (Double.y (Double.scaled v t) =? 0)%float = true).
Proof.
  intros E Hz. split.
  - rewrite (double_setMag_Ok _ _ _ _ E). unfold Double.normalized.
    now rewrite Hz.
  - intros Hx Hy Ht. cbn. split; now apply double_zero_mul_finite.
Qed.

Lemma setMag_zero_on_doubles_witness :
  let v := {| Double.x := 0%float; Double.y := 0%float |} in
  let h : Double.heap := {[ 6%positive := v ]} in
  Double.vec2.setMag 6%positive 10%float h
  = Double.Ok 6%positive (<[6%positive := Double.scaled v 10%float]> h)
  /\ ((Double.x v =? 0)%float = true -> (Double.y v =? 0)%float = true ->
      Double.finite 10%float = true ->
      (Double.x (Double.scaled v 10%float) =? 0)%float = true
      /\ (Double.y (Double.scaled v 10%float) =? 0)%float = true).
Proof.
  intros v h. apply (setMag_zero_on_doubles h 6%positive v 10%float);
    reflexivity.
Defined.

(** C7, as stated, fails for a target that is not finite:
    [(0, 0).setMag(Infinity)] leaves [(NaN, NaN)], since [0 * Infinity] is
    NaN. *)
Lemma setMag_zero_infinite_target :
  let v := {| Double.x := 0%float; Double.y := 0%float |} in
  let r := {| Double.x := nan; Double.y := nan |} in
  let h : Double.heap := {[ 6%positive := v ]} in
  (Double.mag_of v =? 0)%float = true
  /\ Double.vec2.setMag 6%positive infinity h
     = Double.Ok 6%positive (<[6%positive := r]> h)
  /\ (Double.x r =? 0)%float = false.
Proof. repeat split; vm_compute; reflexivity. Qed.

(** A vector can have [mag() == 0] without being the zero vector:
    [(1e-200, 1e-200).setMag(10)] is [(1e-199, 1e-199)]. *)
Lemma setMag_zero_magnitude_underflow :
  let v := {| Double.x := 1e-200%float; Double.y := 1e-200%float |} in
  (Double.mag_of v =? 0)%float = true
  /\ Double.scaled (Double.normalized v) 10%float
     = {| Double.x := 1e-199%float; Double.y := 1e-199%float |}.
Proof. split; vm_compute; reflexivity. Qed.




(** ** angle *)




(** The same from overflow: [(1e200, 0)] against itself. *)
Lemma angle_overflows :
  let v := {| Double.x := 1e200%float; Double.y := 0%float |} in
  let h : Double.heap := {[ 6%positive := v ]} in
  (Double.mag_of v =? 0)%float = false
  /\ forall E, Double.vec2.angle E 6%positive 6%positive h = Double.Ok nan h.
Proof.
  intros v h. split; [vm_compute; reflexivity|].
  intros E.
  rewrite (double_angle_Ok h E 6%positive 6%positive v v eq_refl eq_refl).
  reflexivity.
Qed.

(** ** norm *)




(** ** dot *)

(** X9.  [v.dot(v)] is [v.magSq()]: the two calls run the same products
    and the same sum, so they agree on every heap, doubles rounded as
    they are. *)
Theorem dot_self_is_magSq (h : Double.heap) (this : ref) :
  Double.vec2.dot this this h = Double.vec2.magSq this h.
Proof.
  destruct (h !! this) as [v|] eqn:E.
  - now rewrite (double_dot_Ok _ _ _ E _ _ E), (double_magSq_Ok _ _ _ E).
  - unfold Double.vec2.dot, Double.vec2.magSq, Double.get_x.
    unfold mbind, Double.JS_bind, Double.bind, Double.read. now rewrite E.
Qed.
